(** * Option resolution of [mitmproxy/tools/cmdline.py]

    A shallow embedding of [get_common_options], the function that turns the
    parsed command line (an [argparse] namespace) into the keyword arguments
    of the options object, together with the two stream-file converters of
    [basic_options].  The function raises exceptions and assigns to one
    attribute of its argument, so it is written in a state-and-exception
    monad over the namespace; an assignment to the namespace outlives an
    exception raised after it. *)

From Stdlib Require Import String Ascii List ZArith Bool Lia.
From ExtLib Require Import Structures.Monad Structures.MonadState Structures.MonadExc.
From ExtLib Require Import Data.Monads.StateMonad Data.Monads.EitherMonad.
Import ListNotations.
Import MonadNotation.

Local Open Scope Z_scope.
Local Open Scope string_scope.
Local Open Scope monad_scope.

(** ** Python values and primitives used by the function *)

Module Py.

(** The two exception classes that can leave [get_common_options]:
    [ValueError], raised by [human.parse_size] (its message is set there),
    and [exceptions.OptionsError] with its message. *)
Inductive exn : Type :=
| ValueError
| OptionsError (msg : string).

(** Truth value of a [str]: the empty string is false. *)
Definition str_truthy (s : string) : bool :=
  negb (String.eqb s "").

(** Truth value of an attribute that is [None] or a [str]. *)
Definition truthy (o : option string) : bool :=
  match o with
  | Some s => str_truthy s
  | None => false
  end.

(** [s == o] for a [str] [s] and a value [o] that is [None] or a [str]. *)
Definition str_eq (s : string) (o : option string) : bool :=
  match o with
  | Some t => String.eqb s t
  | None => false
  end.

(** [str(o)], as [str.format] and [%s] render the value. *)
Definition str (o : option string) : string :=
  match o with
  | Some s => s
  | None => "None"
  end.

(** [s.partition(sep)] restricted to what [split] needs: the text before the
    first [sep] and the text after it, or [None] when [sep] does not occur. *)
Fixpoint cut (sep : ascii) (s : string) : option (string * string) :=
  match s with
  | EmptyString => None
  | String c r =>
      if Ascii.eqb c sep then Some (EmptyString, r)
      else match cut sep r with
           | Some (l, r') => Some (String c l, r')
           | None => None
           end
  end.

(** [s.split(sep, 1)] for a one-character separator. *)
Definition split1 (sep : ascii) (s : string) : list string :=
  match cut sep s with
  | Some (l, r) => [l; r]
  | None => [s]
  end.

(** [sep] occurs in [s]. *)
Fixpoint occurs (sep : ascii) (s : string) : bool :=
  match s with
  | EmptyString => false
  | String c r => Ascii.eqb c sep || occurs sep r
  end.

End Py.

(** ** The size parser of [mitmproxy.utils.human] *)

Module Human.

(** Modelled from the spec: the digits that section 4.2 lets a size string
    hold; [human.py] is not among the sources. *)
Definition is_digit (c : ascii) : bool :=
  let n := nat_of_ascii c in (48 <=? n)%nat && (n <=? 57)%nat.

(** Modelled from the spec: the value of a digit. *)
Definition digit_value (c : ascii) : Z :=
  Z.of_nat (nat_of_ascii c) - 48.

(** Modelled from the spec: the number a string of digits denotes, read
    from the left with [acc] the value so far; [None] at a character that
    is not a digit. *)
Fixpoint digits_from (acc : Z) (s : string) : option Z :=
  match s with
  | EmptyString => Some acc
  | String c r =>
      if is_digit c then digits_from (10 * acc + digit_value c) r else None
  end.

(** Modelled from the spec: a non-empty string of digits. *)
Definition digits (s : string) : option Z :=
  match s with
  | EmptyString => None
  | _ => digits_from 0 s
  end.

(** Modelled from the spec: the multiplier of a suffix, in either case.
    Section 8 fixes [k] and [m]; [g] is taken as the next power of 1024. *)
Definition suffix (c : ascii) : option Z :=
  if Ascii.eqb c "k" || Ascii.eqb c "K" then Some 1024
  else if Ascii.eqb c "m" || Ascii.eqb c "M" then Some (1024 * 1024)
  else if Ascii.eqb c "g" || Ascii.eqb c "G" then Some (1024 * 1024 * 1024)
  else None.

(** Modelled from the spec: the string without its last character, and
    that character, to tell the digits from the suffix. *)
Fixpoint unsnoc (s : string) : option (string * ascii) :=
  match s with
  | EmptyString => None
  | String c EmptyString => Some (EmptyString, c)
  | String c r =>
      match unsnoc r with
      | Some (init, last) => Some (String c init, last)
      | None => None
      end
  end.

(** Modelled from the spec: [human.parse_size], which [cmdline.py] imports
    and which is not among the sources.  Section 4.2: the input is a string
    of digits optionally followed by one of k, m, g in either case; the
    result is the number of bytes; it fails on a non-numeric prefix, an
    unknown suffix and the empty string.  Section 8 fixes the multipliers of
    no suffix, [k] and [m] ([parse("0") == 0], [parse("512k") == 512*1024],
    [parse("3m") == 3*1024*1024]).  [None] stands for the raised error. *)
Definition parse_size (s : string) : option Z :=
  match digits s with
  | Some n => Some n
  | None =>
      match unsnoc s with
      | Some (init, last) =>
          match digits init, suffix last with
          | Some n, Some k => Some (n * k)
          | _, _ => None
          end
      | None => None
      end
  end.

End Human.

(** ** The resolver *)

Module Cmdline.

Import Py.

(** What [stream_large_bodies] and [body_size_limit] hold after their step:
    [None], the raw string that was not parsed, or the parsed byte count. *)
Inductive size_value : Type :=
| SizeNone
| SizeStr (s : string)
| SizeInt (n : Z).

Section Resolver.

(** The keys of the namespace that [get_common_options] copies into its
    result without reading them ([onboarding], [anticache], [addr], [port],
    [scripts], ... of lines 100-162). *)
Variable Copied : Type.

(** [human.parse_size]: [None] when it raises [ValueError]. *)
Variable parse_size : string -> option Z.

(** Truth value of [platform.original_addr]. *)
Variable original_addr : bool.

(** The attributes of the [argparse] namespace that the function reads.
    [store] arguments are [None] or the converted value, [append] arguments
    are [None] or a list, [store_true] arguments are booleans, and so are
    the two options wired by [opts.make_parser] that line 88 tests;
    [verbose] is [None] or the constant that [-v] stores. *)
Record Args : Type := mkArgs {
  stickycookie_filt : option string;
  stickyauth_filt : option string;
  stream_large_bodies : option string;
  streamfile : option (string * string);
  rfile : option string;
  certs : option (list string);
  body_size_limit : option string;
  transparent_proxy : bool;
  socks_proxy : bool;
  reverse_proxy : option string;
  upstream_proxy : option string;
  add_upstream_certs_to_client_chain : bool;
  upstream_cert : bool;
  quiet : bool;
  verbose : option Z;
  copied : Copied
}.

(** [args.verbose = v]. *)
Definition set_verbose (v : option Z) (a : Args) : Args :=
  mkArgs (stickycookie_filt a) (stickyauth_filt a) (stream_large_bodies a)
         (streamfile a) (rfile a) (certs a) (body_size_limit a)
         (transparent_proxy a) (socks_proxy a) (reverse_proxy a)
         (upstream_proxy a) (add_upstream_certs_to_client_chain a)
         (upstream_cert a) (quiet a) v (copied a).

(** The returned [dict]: the keys the function computes, the three keys it
    both tests and copies, and the rest of the copied keys. *)
Record Config : Type := mkConfig {
  cfg_rfile : option string;
  cfg_stickycookie : option string;
  cfg_stickyauth : option string;
  cfg_stream_large_bodies : size_value;
  cfg_streamfile : option string;
  cfg_streamfile_append : bool;
  cfg_verbosity : option Z;
  cfg_add_upstream_certs_to_client_chain : bool;
  cfg_body_size_limit : size_value;
  cfg_certs : list (list string);
  cfg_mode : string;
  cfg_upstream_cert : bool;
  cfg_upstream_server : option string;
  cfg_copied : Copied
}.

(** The namespace with another value of [certs]. *)
Definition set_certs (cs : option (list string)) (a : Args) : Args :=
  mkArgs (stickycookie_filt a) (stickyauth_filt a) (stream_large_bodies a)
         (streamfile a) (rfile a) cs (body_size_limit a)
         (transparent_proxy a) (socks_proxy a) (reverse_proxy a)
         (upstream_proxy a) (add_upstream_certs_to_client_chain a)
         (upstream_cert a) (quiet a) (verbose a) (copied a).

(** Computations of the function body: the namespace is the state, which
    every computation hands on, also when it ends in an exception. *)
Definition M : Type -> Type := eitherT exn (state Args).

(** A call of [human.parse_size]. *)
Definition call_parse_size (s : string) : M Z :=
  match parse_size s with
  | Some n => ret n
  | None => raise ValueError
  end.

(** Lines 34-37 and 39-42: the two messages of the stream-file check.  The
    second string is raised as written, without a call of [format]. *)
Definition msg_read_write (r : option string) : string :=
  "Cannot use '" ++ str r ++ "' for both reading and writing flows. "
  ++ "Are you looking for --afile?".

Definition msg_read_append : string :=
  "Cannot use '{}' for both reading and appending flows. "
  ++ "That would trigger an infinite loop.".

(** Line 58. *)
Definition msg_body_size_limit (s : string) : string :=
  "Invalid body size limit specification: " ++ s.

(** Line 68. *)
Definition msg_transparent : string :=
  "Transparent mode not supported on this platform.".

(** Lines 84-86. *)
Definition msg_modes : string :=
  "Transparent, SOCKS5, reverse and upstream proxy mode "
  ++ "are mutually exclusive. Read the docs on proxy modes "
  ++ "to understand why.".

(** Lines 90-93. *)
Definition msg_chain : string :=
  "The no-upstream-cert and add-upstream-certs-to-client-chain "
  ++ "options are mutually exclusive. If no-upstream-cert is enabled "
  ++ "then the upstream certificate is not retrieved before generating "
  ++ "the client certificate chain.".

(** Lines 47-49: one iteration of the loop over [args.certs]. *)
Definition cert_parts (i : string) : list string :=
  let parts := split1 "=" i in
  if (length parts =? 1)%nat then ["*"; nth 0 parts ""] else parts.

(** Lines 45-50: [certs], built by appending in the order of iteration. *)
Definition cert_list (cs : option (list string)) : list (list string) :=
  fold_left (fun acc i => acc ++ [cert_parts i])%list
            (match cs with Some l => l | None => [] end) [].

(** The local variables [c], [mode] and [upstream_server] of lines 62-81. *)
Definition mode_state : Type := (Z * string * option string)%type.

(** Lines 21-26. *)
Definition sticky (filt : option string) : option string :=
  if truthy filt then filt else None.

(** Lines 28-30: no handler around the call. *)
Definition stream_large_bodies_step (args : Args) : M size_value :=
  match stream_large_bodies args with
  | Some s =>
      if str_truthy s then n <- call_parse_size s ;; ret (SizeInt n)
      else ret (SizeStr s)
  | None => ret SizeNone
  end.

(** Lines 32-42.  A stream file is a pair, which is true whatever it
    holds. *)
Definition streamfile_check (args : Args) : M unit :=
  match streamfile args with
  | Some (path, mode) =>
      if str_eq path (rfile args) then
        if String.eqb mode "wb" then
          raise (OptionsError (msg_read_write (rfile args)))
        else
          raise (OptionsError msg_read_append)
      else ret tt
  | None => ret tt
  end.

(** Lines 52-59. *)
Definition body_size_limit_step (args : Args) : M size_value :=
  match body_size_limit args with
  | Some s =>
      if str_truthy s then
        catch (n <- call_parse_size s ;; ret (SizeInt n))
              (fun e =>
                 match e with
                 | ValueError => raise (OptionsError (msg_body_size_limit s))
                 | _ => raise e
                 end)
      else ret (SizeStr s)
  | None => ret SizeNone
  end.

(** Lines 62-87. *)
Definition proxy_mode_step (args : Args) : M (string * option string) :=
  let st : mode_state := (0, "regular", None) in
  st <-
    (if transparent_proxy args then
       let '(c, _, upstream_server) := st in
       let c := c + 1 in
       if negb original_addr then
         raise (OptionsError msg_transparent)
       else ret (c, "transparent", upstream_server)
     else ret st) ;;
  let st : mode_state :=
    if socks_proxy args then
      let '(c, _, upstream_server) := st in (c + 1, "socks5", upstream_server)
    else st in
  let st : mode_state :=
    if truthy (reverse_proxy args) then
      let '(c, _, _) := st in (c + 1, "reverse", reverse_proxy args)
    else st in
  let st : mode_state :=
    if truthy (upstream_proxy args) then
      let '(c, _, _) := st in (c + 1, "upstream", upstream_proxy args)
    else st in
  let '(c, mode, upstream_server) := st in
  if c >? 1 then raise (OptionsError msg_modes)
  else ret (mode, upstream_server).

(** Lines 88-94. *)
Definition chain_check (args : Args) : M unit :=
  if add_upstream_certs_to_client_chain args && negb (upstream_cert args)
  then raise (OptionsError msg_chain)
  else ret tt.

(** Lines 96-97. *)
Definition quiet_step (args : Args) : M unit :=
  if quiet args then put (set_verbose (Some 0) args) else ret tt.

(** Lines 20-162, block by block in the order of the source. *)
Definition get_common_options : M Config :=
  args <- get ;;
  let stickycookie := sticky (stickycookie_filt args) in
  let stickyauth := sticky (stickyauth_filt args) in
  stream_large_bodies' <- stream_large_bodies_step args ;;
  streamfile_check args ;;
  let certs' := cert_list (certs args) in
  body_size_limit' <- body_size_limit_step args ;;
  '(mode, upstream_server) <- proxy_mode_step args ;;
  chain_check args ;;
  quiet_step args ;;
  args <- get ;;
  ret (mkConfig
         (rfile args)
         stickycookie
         stickyauth
         stream_large_bodies'
         (match streamfile args with Some (f, _) => Some f | None => None end)
         (match streamfile args with
          | Some (_, m) => if String.eqb m "a" then true else false
          | None => false
          end)
         (verbose args)
         (add_upstream_certs_to_client_chain args)
         body_size_limit'
         certs'
         mode
         (upstream_cert args)
         upstream_server
         (copied args)).

(** Running a computation on a namespace: the exception or the value, and
    the namespace as the computation left it. *)
Definition exec {A : Type} (c : M A) (a : Args) : (exn + A) * Args :=
  runState (unEitherT c) a.

Definition run (a : Args) : (exn + Config) * Args :=
  exec get_common_options a.

(** What a call raises or returns. *)
Definition result (a : Args) : exn + Config :=
  fst (run a).

(** The namespace after the call. *)
Definition namespace_after (a : Args) : Args :=
  snd (run a).

(** *** The rules of the function, one test each

    Each test is the condition of one [raise] of the source, read off the
    namespace alone. *)

(** Line 29-30: [parse_size] is called and raises. *)
Definition stream_size_rejected (a : Args) : bool :=
  match stream_large_bodies a with
  | Some s =>
      str_truthy s && match parse_size s with Some _ => false | None => true end
  | None => false
  end.

(** Line 32. *)
Definition streamfile_conflict (a : Args) : bool :=
  match streamfile a with
  | Some (path, _) => str_eq path (rfile a)
  | None => false
  end.

(** Lines 53-56: [parse_size] is called and raises. *)
Definition body_size_rejected (a : Args) : bool :=
  match body_size_limit a with
  | Some s =>
      str_truthy s && match parse_size s with Some _ => false | None => true end
  | None => false
  end.

(** Lines 64 and 66. *)
Definition transparent_unsupported (a : Args) : bool :=
  transparent_proxy a && negb original_addr.

(** The value of the counter [c] at line 82. *)
Definition requested_modes (a : Args) : Z :=
  Z.b2z (transparent_proxy a) + Z.b2z (socks_proxy a)
  + Z.b2z (truthy (reverse_proxy a)) + Z.b2z (truthy (upstream_proxy a)).

(** Line 88. *)
Definition chain_violation (a : Args) : bool :=
  add_upstream_certs_to_client_chain a && negb (upstream_cert a).

(** No [raise] before the stream-file check, before the body-size-limit
    step, before the proxy-mode step, before the count is tested, and
    before the certificate-chain check. *)
Definition reaches_streamfile (a : Args) : bool :=
  negb (stream_size_rejected a).

Definition reaches_body_size (a : Args) : bool :=
  reaches_streamfile a && negb (streamfile_conflict a).

Definition reaches_modes (a : Args) : bool :=
  reaches_body_size a && negb (body_size_rejected a).

Definition reaches_count (a : Args) : bool :=
  reaches_modes a && negb (transparent_unsupported a).

Definition reaches_chain (a : Args) : bool :=
  reaches_count a && negb (1 <? requested_modes a)%Z.

(** The exception of the first rule that is violated, in the order of the
    source; [None] when no rule is. *)
Definition first_error (a : Args) : option exn :=
  if stream_size_rejected a then Some ValueError
  else if streamfile_conflict a then
    Some (OptionsError
            (match streamfile a with
             | Some (_, mode) =>
                 if String.eqb mode "wb" then msg_read_write (rfile a)
                 else msg_read_append
             | None => msg_read_append
             end))
  else if body_size_rejected a then
    Some (OptionsError (msg_body_size_limit (str (body_size_limit a))))
  else if transparent_unsupported a then Some (OptionsError msg_transparent)
  else if (1 <? requested_modes a)%Z then Some (OptionsError msg_modes)
  else if chain_violation a then Some (OptionsError msg_chain)
  else None.

(** A size option after its step, when the step does not raise. *)
Definition resolved_size (o : option string) : size_value :=
  match o with
  | Some s =>
      if str_truthy s then
        match parse_size s with Some n => SizeInt n | None => SizeStr s end
      else SizeStr s
  | None => SizeNone
  end.

(** The values of [mode] and [upstream_server] after lines 64-81: the last
    assignment stands. *)
Definition selected_mode (a : Args) : string :=
  if truthy (upstream_proxy a) then "upstream"
  else if truthy (reverse_proxy a) then "reverse"
  else if socks_proxy a then "socks5"
  else if transparent_proxy a then "transparent"
  else "regular".

Definition selected_upstream (a : Args) : option string :=
  if truthy (upstream_proxy a) then upstream_proxy a
  else if truthy (reverse_proxy a) then reverse_proxy a
  else None.

(** The namespace after lines 96-97. *)
Definition quieted (a : Args) : Args :=
  if quiet a then set_verbose (Some 0) a else a.

(** The dictionary of lines 99-162 when no rule is violated. *)
Definition resolved (a : Args) : Config :=
  mkConfig
    (rfile a)
    (sticky (stickycookie_filt a))
    (sticky (stickyauth_filt a))
    (resolved_size (stream_large_bodies a))
    (match streamfile a with Some (f, _) => Some f | None => None end)
    (match streamfile a with
     | Some (_, m) => String.eqb m "a"
     | None => false
     end)
    (if quiet a then Some 0 else verbose a)
    (add_upstream_certs_to_client_chain a)
    (resolved_size (body_size_limit a))
    (cert_list (certs a))
    (selected_mode a)
    (upstream_cert a)
    (selected_upstream a)
    (copied a).

(** Two namespaces hold the same values for the attributes that a test
    before a [raise] reads (lines 29-30, 32-33, 53-55, 64, 71, 74, 78 and
    88); the other attributes are free. *)
Definition same_checked (a b : Args) : Prop :=
  stream_large_bodies a = stream_large_bodies b /\
  streamfile a = streamfile b /\
  rfile a = rfile b /\
  body_size_limit a = body_size_limit b /\
  transparent_proxy a = transparent_proxy b /\
  socks_proxy a = socks_proxy b /\
  reverse_proxy a = reverse_proxy b /\
  upstream_proxy a = upstream_proxy b /\
  add_upstream_certs_to_client_chain a = add_upstream_certs_to_client_chain b /\
  upstream_cert a = upstream_cert b.

End Resolver.

Arguments mkArgs {Copied}.
Arguments stickycookie_filt {Copied}.
Arguments stickyauth_filt {Copied}.
Arguments stream_large_bodies {Copied}.
Arguments streamfile {Copied}.
Arguments rfile {Copied}.
Arguments certs {Copied}.
Arguments body_size_limit {Copied}.
Arguments transparent_proxy {Copied}.
Arguments socks_proxy {Copied}.
Arguments reverse_proxy {Copied}.
Arguments upstream_proxy {Copied}.
Arguments add_upstream_certs_to_client_chain {Copied}.
Arguments upstream_cert {Copied}.
Arguments quiet {Copied}.
Arguments verbose {Copied}.
Arguments copied {Copied}.
Arguments set_verbose {Copied}.
Arguments set_certs {Copied}.
Arguments cfg_rfile {Copied}.
Arguments cfg_stickycookie {Copied}.
Arguments cfg_stickyauth {Copied}.
Arguments cfg_stream_large_bodies {Copied}.
Arguments cfg_streamfile {Copied}.
Arguments cfg_streamfile_append {Copied}.
Arguments cfg_verbosity {Copied}.
Arguments cfg_add_upstream_certs_to_client_chain {Copied}.
Arguments cfg_body_size_limit {Copied}.
Arguments cfg_certs {Copied}.
Arguments cfg_mode {Copied}.
Arguments cfg_upstream_cert {Copied}.
Arguments cfg_upstream_server {Copied}.
Arguments cfg_copied {Copied}.
Arguments get_common_options {Copied}.
Arguments exec {Copied A}.
Arguments run {Copied}.
Arguments result {Copied}.
Arguments namespace_after {Copied}.
Arguments stream_size_rejected {Copied}.
Arguments streamfile_conflict {Copied}.
Arguments body_size_rejected {Copied}.
Arguments transparent_unsupported {Copied}.
Arguments requested_modes {Copied}.
Arguments chain_violation {Copied}.
Arguments reaches_streamfile {Copied}.
Arguments reaches_body_size {Copied}.
Arguments reaches_modes {Copied}.
Arguments reaches_count {Copied}.
Arguments reaches_chain {Copied}.
Arguments first_error {Copied}.
Arguments selected_mode {Copied}.
Arguments selected_upstream {Copied}.
Arguments quieted {Copied}.
Arguments resolved {Copied}.
Arguments same_checked {Copied}.
Arguments stream_large_bodies_step {Copied}.
Arguments streamfile_check {Copied}.
Arguments body_size_limit_step {Copied}.
Arguments proxy_mode_step {Copied}.
Arguments chain_check {Copied}.
Arguments quiet_step {Copied}.

(** The character at index 11 of a message.  It differs between the
    messages of different rules, whatever file name or size string is
    spliced in. *)
Definition mark (e : exn) : option ascii :=
  match e with
  | ValueError => None
  | OptionsError msg => String.get 11 msg
  end.

(** Lines 220-230: the converters of [-w] and [-a]. *)
Definition wfile (f : string) : string * string := (f, "w").
Definition afile (f : string) : string * string := (f, "a").

(** *** Command lines

    The namespace of an empty command line (retrieval of the upstream
    certificate is on unless [--no-upstream-cert] is given), and the effect
    of the flags on it. *)

Definition no_flags : Args unit :=
  mkArgs None None None None None None None
         false false None None false true false None tt.

Definition flag_r (f : string) (a : Args unit) : Args unit :=
  mkArgs (stickycookie_filt a) (stickyauth_filt a) (stream_large_bodies a)
         (streamfile a) (Some f) (certs a) (body_size_limit a)
         (transparent_proxy a) (socks_proxy a) (reverse_proxy a)
         (upstream_proxy a) (add_upstream_certs_to_client_chain a)
         (upstream_cert a) (quiet a) (verbose a) (copied a).

(** [-t] and [-u] (lines 203-214). *)
Definition flag_t (f : string) (a : Args unit) : Args unit :=
  mkArgs (Some f) (stickyauth_filt a) (stream_large_bodies a)
         (streamfile a) (rfile a) (certs a) (body_size_limit a)
         (transparent_proxy a) (socks_proxy a) (reverse_proxy a)
         (upstream_proxy a) (add_upstream_certs_to_client_chain a)
         (upstream_cert a) (quiet a) (verbose a) (copied a).

Definition flag_u (f : string) (a : Args unit) : Args unit :=
  mkArgs (stickycookie_filt a) (Some f) (stream_large_bodies a)
         (streamfile a) (rfile a) (certs a) (body_size_limit a)
         (transparent_proxy a) (socks_proxy a) (reverse_proxy a)
         (upstream_proxy a) (add_upstream_certs_to_client_chain a)
         (upstream_cert a) (quiet a) (verbose a) (copied a).

Definition store_streamfile (v : string * string) (a : Args unit) : Args unit :=
  mkArgs (stickycookie_filt a) (stickyauth_filt a) (stream_large_bodies a)
         (Some v) (rfile a) (certs a) (body_size_limit a)
         (transparent_proxy a) (socks_proxy a) (reverse_proxy a)
         (upstream_proxy a) (add_upstream_certs_to_client_chain a)
         (upstream_cert a) (quiet a) (verbose a) (copied a).

Definition flag_w (f : string) : Args unit -> Args unit :=
  store_streamfile (wfile f).

Definition flag_a (f : string) : Args unit -> Args unit :=
  store_streamfile (afile f).

Definition flag_stream (s : string) (a : Args unit) : Args unit :=
  mkArgs (stickycookie_filt a) (stickyauth_filt a) (Some s)
         (streamfile a) (rfile a) (certs a) (body_size_limit a)
         (transparent_proxy a) (socks_proxy a) (reverse_proxy a)
         (upstream_proxy a) (add_upstream_certs_to_client_chain a)
         (upstream_cert a) (quiet a) (verbose a) (copied a).

Definition flag_Z (s : string) (a : Args unit) : Args unit :=
  mkArgs (stickycookie_filt a) (stickyauth_filt a) (stream_large_bodies a)
         (streamfile a) (rfile a) (certs a) (Some s)
         (transparent_proxy a) (socks_proxy a) (reverse_proxy a)
         (upstream_proxy a) (add_upstream_certs_to_client_chain a)
         (upstream_cert a) (quiet a) (verbose a) (copied a).

Definition flag_cert (s : string) (a : Args unit) : Args unit :=
  mkArgs (stickycookie_filt a) (stickyauth_filt a) (stream_large_bodies a)
         (streamfile a) (rfile a)
         (Some ((match certs a with Some l => l | None => [] end) ++ [s])%list)
         (body_size_limit a)
         (transparent_proxy a) (socks_proxy a) (reverse_proxy a)
         (upstream_proxy a) (add_upstream_certs_to_client_chain a)
         (upstream_cert a) (quiet a) (verbose a) (copied a).

Definition flag_T (a : Args unit) : Args unit :=
  mkArgs (stickycookie_filt a) (stickyauth_filt a) (stream_large_bodies a)
         (streamfile a) (rfile a) (certs a) (body_size_limit a)
         true (socks_proxy a) (reverse_proxy a)
         (upstream_proxy a) (add_upstream_certs_to_client_chain a)
         (upstream_cert a) (quiet a) (verbose a) (copied a).

Definition flag_socks (a : Args unit) : Args unit :=
  mkArgs (stickycookie_filt a) (stickyauth_filt a) (stream_large_bodies a)
         (streamfile a) (rfile a) (certs a) (body_size_limit a)
         (transparent_proxy a) true (reverse_proxy a)
         (upstream_proxy a) (add_upstream_certs_to_client_chain a)
         (upstream_cert a) (quiet a) (verbose a) (copied a).

Definition flag_R (u : string) (a : Args unit) : Args unit :=
  mkArgs (stickycookie_filt a) (stickyauth_filt a) (stream_large_bodies a)
         (streamfile a) (rfile a) (certs a) (body_size_limit a)
         (transparent_proxy a) (socks_proxy a) (Some u)
         (upstream_proxy a) (add_upstream_certs_to_client_chain a)
         (upstream_cert a) (quiet a) (verbose a) (copied a).

Definition flag_U (u : string) (a : Args unit) : Args unit :=
  mkArgs (stickycookie_filt a) (stickyauth_filt a) (stream_large_bodies a)
         (streamfile a) (rfile a) (certs a) (body_size_limit a)
         (transparent_proxy a) (socks_proxy a) (reverse_proxy a)
         (Some u) (add_upstream_certs_to_client_chain a)
         (upstream_cert a) (quiet a) (verbose a) (copied a).

Definition flag_add_upstream_certs (a : Args unit) : Args unit :=
  mkArgs (stickycookie_filt a) (stickyauth_filt a) (stream_large_bodies a)
         (streamfile a) (rfile a) (certs a) (body_size_limit a)
         (transparent_proxy a) (socks_proxy a) (reverse_proxy a)
         (upstream_proxy a) true
         (upstream_cert a) (quiet a) (verbose a) (copied a).

Definition flag_no_upstream_cert (a : Args unit) : Args unit :=
  mkArgs (stickycookie_filt a) (stickyauth_filt a) (stream_large_bodies a)
         (streamfile a) (rfile a) (certs a) (body_size_limit a)
         (transparent_proxy a) (socks_proxy a) (reverse_proxy a)
         (upstream_proxy a) (add_upstream_certs_to_client_chain a)
         false (quiet a) (verbose a) (copied a).

Definition flag_q (a : Args unit) : Args unit :=
  mkArgs (stickycookie_filt a) (stickyauth_filt a) (stream_large_bodies a)
         (streamfile a) (rfile a) (certs a) (body_size_limit a)
         (transparent_proxy a) (socks_proxy a) (reverse_proxy a)
         (upstream_proxy a) (add_upstream_certs_to_client_chain a)
         (upstream_cert a) true (verbose a) (copied a).

(** [-v] stores the constant 3 (line 217). *)
Definition flag_v : Args unit -> Args unit :=
  set_verbose (Some 3).

(** The resolver with the size parser of [Human], on a platform with
    ([true]) or without ([false]) [platform.original_addr]. *)
Definition resolve (original_addr : bool) (a : Args unit)
  : exn + Config unit :=
  result Human.parse_size original_addr a.

End Cmdline.

(** * Properties *)

Module CmdlineFacts.

Import Py Cmdline.

Ltac split_reaches :=
  unfold reaches_chain, reaches_count, reaches_modes, reaches_body_size,
    reaches_streamfile in *;
  repeat match goal with
         | H : _ && _ = true |- _ => apply andb_true_iff in H; destruct H
         | H : negb _ = true |- _ => apply negb_true_iff in H
         end.

Ltac fire :=
  split_reaches; unfold first_error;
  repeat match goal with
         | H : ?b = true |- context [?b] => rewrite H
         | H : ?b = false |- context [?b] => rewrite H
         end;
  try reflexivity.

Section Facts.

Context {Copied : Type}.
Variable parse_size : string -> option Z.
Variable original_addr : bool.

Implicit Types a s : Args Copied.


(** ** Running a sequence *)

Lemma exec_bind {A B : Type} (c : M Copied A) (k : A -> M Copied B) s :
  exec (bind c k) s =
  match exec c s with
  | (inl e, s') => (inl e, s')
  | (inr v, s') => exec (k v) s'
  end.
Proof.
  unfold exec. cbn. destruct (runState (unEitherT c) s) as [[e|v] s'];
    reflexivity.
Qed.

Lemma exec_get s : exec (get : M Copied (Args Copied)) s = (inr s, s).
Proof. reflexivity. Qed.

Lemma exec_ret {A : Type} (v : A) s : exec (ret v : M Copied A) s = (inr v, s).
Proof. reflexivity. Qed.

(** ** Each block of the function, run on its own *)

Lemma stream_large_bodies_step_run a s :
  exec (stream_large_bodies_step parse_size a) s =
  (if stream_size_rejected parse_size a then inl ValueError
   else inr (resolved_size parse_size (stream_large_bodies a)), s).
Proof.
  unfold stream_large_bodies_step, stream_size_rejected, resolved_size,
    call_parse_size.
  destruct (stream_large_bodies a) as [v|]; [|reflexivity].
  destruct (str_truthy v); [|reflexivity].
  destruct (parse_size v); reflexivity.
Qed.

Lemma streamfile_check_run a s :
  exec (streamfile_check a) s =
  (if streamfile_conflict a then
     inl (OptionsError
            (match streamfile a with
             | Some (_, mode) =>
                 if String.eqb mode "wb" then msg_read_write (rfile a)
                 else msg_read_append
             | None => msg_read_append
             end))
   else inr tt, s).
Proof.
  unfold streamfile_check, streamfile_conflict.
  destruct (streamfile a) as [[path mode]|]; [|reflexivity].
  destruct (str_eq path (rfile a)); [|reflexivity].
  destruct (String.eqb mode "wb"); reflexivity.
Qed.

Lemma body_size_limit_step_run a s :
  exec (body_size_limit_step parse_size a) s =
  (if body_size_rejected parse_size a then
     inl (OptionsError (msg_body_size_limit (str (body_size_limit a))))
   else inr (resolved_size parse_size (body_size_limit a)), s).
Proof.
  unfold body_size_limit_step, body_size_rejected, resolved_size,
    call_parse_size.
  destruct (body_size_limit a) as [v|]; [|reflexivity].
  destruct (str_truthy v); [|reflexivity].
  destruct (parse_size v); reflexivity.
Qed.

Lemma proxy_mode_step_run a s :
  exec (proxy_mode_step original_addr a) s =
  (if transparent_unsupported original_addr a then
     inl (OptionsError msg_transparent)
   else if (1 <? requested_modes a)%Z then inl (OptionsError msg_modes)
   else inr (selected_mode a, selected_upstream a), s).
Proof.
  unfold proxy_mode_step, transparent_unsupported, requested_modes,
    selected_mode, selected_upstream.
  destruct (transparent_proxy a), original_addr, (socks_proxy a),
    (truthy (reverse_proxy a)), (truthy (upstream_proxy a)); reflexivity.
Qed.

Lemma chain_check_run a s :
  exec (chain_check a) s =
  (if chain_violation a then inl (OptionsError msg_chain) else inr tt, s).
Proof.
  unfold chain_check, chain_violation.
  destruct (add_upstream_certs_to_client_chain a && negb (upstream_cert a));
    reflexivity.
Qed.

Lemma quiet_step_run a s :
  exec (quiet_step a) s =
  (inr tt, if quiet a then set_verbose (Some 0) a else s).
Proof.
  unfold quiet_step. destruct (quiet a); reflexivity.
Qed.

(** ** The function as a list of rules

    [run] raises the exception of the first violated rule, leaving the
    namespace as it was, and otherwise returns the dictionary [resolved],
    leaving the namespace [quieted]. *)

Lemma run_first_error a :
  run parse_size original_addr a =
  match first_error parse_size original_addr a with
  | Some e => (inl e, a)
  | None => (inr (resolved parse_size a), quieted a)
  end.
Proof.
  unfold run, get_common_options, first_error.
  rewrite exec_bind, exec_get.
  rewrite exec_bind, stream_large_bodies_step_run.
  destruct (stream_size_rejected parse_size a); [reflexivity|].
  rewrite exec_bind, streamfile_check_run.
  destruct (streamfile_conflict a); [reflexivity|].
  rewrite exec_bind, body_size_limit_step_run.
  destruct (body_size_rejected parse_size a); [reflexivity|].
  rewrite exec_bind, proxy_mode_step_run.
  destruct (transparent_unsupported original_addr a); [reflexivity|].
  destruct (1 <? requested_modes a)%Z; [reflexivity|].
  rewrite exec_bind, chain_check_run.
  destruct (chain_violation a); [reflexivity|].
  rewrite exec_bind, quiet_step_run.
  rewrite exec_bind, exec_get, exec_ret.
  unfold resolved, quieted.
  destruct (quiet a); cbn; destruct (streamfile a) as [[f m]|];
    try destruct (String.eqb m "a"); reflexivity.
Qed.

(** ** The messages tell the rules apart *)

Lemma mark_streamfile a :
  mark (OptionsError
          (match streamfile a with
           | Some (_, mode) =>
               if String.eqb mode "wb" then msg_read_write (rfile a)
               else msg_read_append
           | None => msg_read_append
           end)) = Some "'"%char.
Proof.
  destruct (streamfile a) as [[f mode]|]; [destruct (String.eqb mode "wb")|];
    reflexivity.
Qed.

Lemma mark_body_size_limit v :
  mark (OptionsError (msg_body_size_limit v)) = Some "y"%char.
Proof. reflexivity. Qed.

Lemma mark_transparent : mark (OptionsError msg_transparent) = Some " "%char.
Proof. reflexivity. Qed.

Lemma mark_modes : mark (OptionsError msg_modes) = Some ","%char.
Proof. reflexivity. Qed.

Lemma mark_chain : mark (OptionsError msg_chain) = Some "r"%char.
Proof. reflexivity. Qed.

(** The mark of the exception of each rule, by the rule that fires. *)
Lemma first_error_mark a e :
  first_error parse_size original_addr a = Some e ->
  (stream_size_rejected parse_size a = true /\ e = ValueError) \/
  (reaches_streamfile parse_size a = true /\ streamfile_conflict a = true /\
   mark e = Some "'"%char) \/
  (reaches_body_size parse_size a = true /\
   body_size_rejected parse_size a = true /\
   e = OptionsError (msg_body_size_limit (str (body_size_limit a)))) \/
  (reaches_modes parse_size a = true /\
   transparent_unsupported original_addr a = true /\
   e = OptionsError msg_transparent) \/
  (reaches_count parse_size original_addr a = true /\
   1 < requested_modes a /\ e = OptionsError msg_modes) \/
  (reaches_chain parse_size original_addr a = true /\
   chain_violation a = true /\ e = OptionsError msg_chain).
Proof.
  unfold first_error, reaches_chain, reaches_count, reaches_modes,
    reaches_body_size, reaches_streamfile.
  destruct (stream_size_rejected parse_size a).
  { intros [= <-]. left. split; reflexivity. }
  destruct (streamfile_conflict a).
  { intros [= <-]. right; left. rewrite mark_streamfile. repeat split. }
  destruct (body_size_rejected parse_size a).
  { intros [= <-]. do 2 right; left. repeat split. }
  destruct (transparent_unsupported original_addr a).
  { intros [= <-]. do 3 right; left. repeat split. }
  destruct (Z.ltb_spec 1 (requested_modes a)).
  { intros [= <-]. do 4 right; left. repeat split. assumption. }
  destruct (chain_violation a).
  { intros [= <-]. do 5 right. repeat split. }
  discriminate.
Qed.

(** ** Which rule fires *)



Lemma first_error_stream a :
  stream_size_rejected parse_size a = true ->
  first_error parse_size original_addr a = Some ValueError.
Proof. intros H. unfold first_error. rewrite H. reflexivity. Qed.

Lemma first_error_streamfile a :
  reaches_streamfile parse_size a = true ->
  streamfile_conflict a = true ->
  first_error parse_size original_addr a =
  Some (OptionsError
          (match streamfile a with
           | Some (_, mode) =>
               if String.eqb mode "wb" then msg_read_write (rfile a)
               else msg_read_append
           | None => msg_read_append
           end)).
Proof.
  intros H1 H2. fire.
Qed.


Lemma first_error_transparent a :
  reaches_modes parse_size a = true ->
  transparent_unsupported original_addr a = true ->
  first_error parse_size original_addr a = Some (OptionsError msg_transparent).
Proof.
  intros H1 H2. fire.
Qed.

Lemma first_error_count a :
  reaches_count parse_size original_addr a = true ->
  first_error parse_size original_addr a =
  if (1 <? requested_modes a)%Z then Some (OptionsError msg_modes)
  else if chain_violation a then Some (OptionsError msg_chain)
  else None.
Proof.
  intros H1. fire.
Qed.

Lemma first_error_chain a :
  reaches_chain parse_size original_addr a = true ->
  first_error parse_size original_addr a =
  if chain_violation a then Some (OptionsError msg_chain) else None.
Proof.
  intros H1. fire.
Qed.

Lemma first_error_none a :
  first_error parse_size original_addr a = None <->
  reaches_chain parse_size original_addr a = true /\ chain_violation a = false.
Proof.
  split.
  - unfold first_error, reaches_chain, reaches_count, reaches_modes,
      reaches_body_size, reaches_streamfile.
    destruct (stream_size_rejected parse_size a); [discriminate|].
    destruct (streamfile_conflict a); [discriminate|].
    destruct (body_size_rejected parse_size a); [discriminate|].
    destruct (transparent_unsupported original_addr a); [discriminate|].
    destruct (1 <? requested_modes a)%Z; [discriminate|].
    destruct (chain_violation a); [discriminate|].
    split; reflexivity.
  - intros [H1 H2]. rewrite first_error_chain, H2; trivial.
Qed.

(** Resolution succeeds exactly when no rule is violated. *)
Lemma run_succeeds a :
  reaches_chain parse_size original_addr a = true ->
  chain_violation a = false ->
  run parse_size original_addr a = (inr (resolved parse_size a), quieted a).
Proof.
  intros H1 H2. rewrite run_first_error.
  rewrite (proj2 (first_error_none a) (conj H1 H2)). reflexivity.
Qed.

Lemma result_succeeds a :
  reaches_chain parse_size original_addr a = true ->
  chain_violation a = false ->
  result parse_size original_addr a = inr (resolved parse_size a).
Proof.
  intros H1 H2. unfold result. rewrite run_succeeds by assumption.
  reflexivity.
Qed.

Lemma result_inr a cfg :
  result parse_size original_addr a = inr cfg ->
  first_error parse_size original_addr a = None /\
  cfg = resolved parse_size a.
Proof.
  unfold result. rewrite run_first_error.
  destruct (first_error parse_size original_addr a); [discriminate|].
  intros [= <-]. split; reflexivity.
Qed.

Lemma result_inl a e :
  result parse_size original_addr a = inl e <->
  first_error parse_size original_addr a = Some e.
Proof.
  unfold result. rewrite run_first_error.
  destruct (first_error parse_size original_addr a);
    split; intros H; inversion H; reflexivity.
Qed.

(** A call that raises leaves the namespace as it found it: the quiet
    override of lines 96-97 comes after every [raise]. *)
Lemma namespace_after_error a e :
  result parse_size original_addr a = inl e ->
  namespace_after parse_size original_addr a = a.
Proof.
  intros H. apply result_inl in H. unfold namespace_after.
  rewrite run_first_error, H. reflexivity.
Qed.

Lemma namespace_after_success a cfg :
  result parse_size original_addr a = inr cfg ->
  namespace_after parse_size original_addr a = quieted a.
Proof.
  intros H. apply result_inr in H. destruct H as [H _].
  unfold namespace_after. rewrite run_first_error, H. reflexivity.
Qed.

(** ** Splitting certificate specifications *)

Lemma cut_absent sep v : occurs sep v = false -> cut sep v = None.
Proof.
  induction v as [|c r IH]; cbn; [reflexivity|].
  destruct (Ascii.eqb c sep); cbn; [discriminate|].
  intros H. rewrite (IH H). reflexivity.
Qed.

Lemma cut_first sep d p :
  occurs sep d = false -> cut sep (d ++ String sep p) = Some (d, p).
Proof.
  induction d as [|c r IH]; cbn.
  - intros _. rewrite Ascii.eqb_refl. reflexivity.
  - destruct (Ascii.eqb c sep); cbn; [discriminate|].
    intros H. rewrite (IH H). reflexivity.
Qed.

Lemma cert_list_from acc l :
  fold_left (fun acc i => acc ++ [cert_parts i])%list l acc =
  (acc ++ map cert_parts l)%list.
Proof.
  revert acc. induction l as [|i l IH]; intros acc; cbn.
  - rewrite app_nil_r. reflexivity.
  - rewrite IH, <- app_assoc. reflexivity.
Qed.

Lemma cert_list_map l : cert_list (Some l) = map cert_parts l.
Proof. unfold cert_list. apply cert_list_from. Qed.

(** ** The stream-file check and the size of streamed bodies *)

(** Whatever [-w] or [-a] stored, a stream file that is also the file read
    raises the message about appending. *)
Lemma cli_same_file_message a f :
  streamfile a = Some (wfile f) \/ streamfile a = Some (afile f) ->
  rfile a = Some f ->
  reaches_streamfile parse_size a = true ->
  result parse_size original_addr a = inl (OptionsError msg_read_append).
Proof.
  intros Hs Hr H1. apply result_inl.
  rewrite first_error_streamfile; trivial.
  - destruct Hs as [-> | ->]; reflexivity.
  - unfold streamfile_conflict.
    destruct Hs as [-> | ->]; cbn; rewrite Hr; cbn; apply String.eqb_refl.
Qed.

(** A rejected [--stream] size leaves the function as the parser's
    [ValueError]. *)
Lemma stream_size_error a :
  stream_size_rejected parse_size a = true ->
  result parse_size original_addr a = inl ValueError.
Proof. intros H. apply result_inl, first_error_stream, H. Qed.

End Facts.

(** ** Claims about the rules *)

Section Claims.

Context {Copied : Type}.
Variable parse_size : string -> option Z.
Variable original_addr : bool.

Implicit Types a s : Args Copied.

(** C4.  Resolution raises the certificate-chain error exactly when no
    earlier rule is violated and add-upstream-certs-to-client-chain is on
    while retrieval of the upstream certificate is off; when the other rules
    pass, resolution fails if and only if that combination is given; with
    retrieval left on, the option never raises this error. *)
Theorem chain_precondition a :
  (result parse_size original_addr a = inl (OptionsError msg_chain) <->
   reaches_chain parse_size original_addr a = true /\
   add_upstream_certs_to_client_chain a = true /\ upstream_cert a = false) /\
  (reaches_chain parse_size original_addr a = true ->
   ((exists e, result parse_size original_addr a = inl e) <->
    add_upstream_certs_to_client_chain a = true /\ upstream_cert a = false)) /\
  (add_upstream_certs_to_client_chain a = true -> upstream_cert a = true ->
   result parse_size original_addr a <> inl (OptionsError msg_chain)).
Proof.
  assert (Hv : chain_violation a = true <->
               add_upstream_certs_to_client_chain a = true /\
               upstream_cert a = false).
  { unfold chain_violation. rewrite andb_true_iff, negb_true_iff. tauto. }
  assert (Hmain : result parse_size original_addr a = inl (OptionsError msg_chain) ->
                  reaches_chain parse_size original_addr a = true /\
                  chain_violation a = true).
  { intros H. apply result_inl, first_error_mark in H.
    destruct H as [[_ H]|[(_ & _ & H)|[(_ & _ & H)|[(_ & _ & H)|[(_ & _ & H)|H]]]]];
      try discriminate H.
    - tauto. }
  split; [|split].
  - split.
    + intros H. apply Hmain in H. tauto.
    + intros (H1 & H2). apply result_inl. rewrite first_error_chain by exact H1.
      rewrite (proj2 Hv H2). reflexivity.
  - intros H1. split.
    + intros [e He]. apply result_inl in He.
      rewrite first_error_chain in He by exact H1.
      destruct (chain_violation a); [tauto|discriminate].
    + intros H2. exists (OptionsError msg_chain). apply result_inl.
      rewrite first_error_chain by exact H1.
      rewrite (proj2 Hv H2). reflexivity.
  - intros _ Hu H. apply Hmain in H. destruct H as [_ H].
    apply Hv in H. destruct H as [_ H]. congruence.
Qed.

(** C3, as amended.  For a namespace that passes the rules before the
    proxy-mode step (stream size and body size limit accepted, stream file
    not the file read), where a selector counts as requested when its switch
    is on (transparent, socks5) or its target is a non-empty string
    (reverse, upstream): if transparent mode is requested on a platform
    without [original_addr], resolution fails with the platform error,
    whatever else is requested; otherwise, with more than one selector
    requested, resolution fails with the error naming the four modes as
    mutually exclusive; otherwise the certificate-chain error is raised if
    that rule is violated, and if it is respected resolution succeeds, the
    mode is the one requested, with its target as upstream server for
    reverse and upstream, and it is regular with no upstream server when
    none is requested. *)
Theorem proxy_mode_selection a :
  reaches_modes parse_size a = true ->
  (transparent_proxy a = true -> original_addr = false ->
   result parse_size original_addr a = inl (OptionsError msg_transparent)) /\
  (transparent_unsupported original_addr a = false ->
   (1 < requested_modes a ->
    result parse_size original_addr a = inl (OptionsError msg_modes)) /\
   (requested_modes a <= 1 -> chain_violation a = true ->
    result parse_size original_addr a = inl (OptionsError msg_chain)) /\
   (requested_modes a <= 1 -> chain_violation a = false ->
    exists cfg,
      run parse_size original_addr a = (inr cfg, quieted a) /\
      (transparent_proxy a = true ->
       cfg_mode cfg = "transparent" /\ cfg_upstream_server cfg = None) /\
      (socks_proxy a = true ->
       cfg_mode cfg = "socks5" /\ cfg_upstream_server cfg = None) /\
      (truthy (reverse_proxy a) = true ->
       cfg_mode cfg = "reverse" /\ cfg_upstream_server cfg = reverse_proxy a) /\
      (truthy (upstream_proxy a) = true ->
       cfg_mode cfg = "upstream" /\
       cfg_upstream_server cfg = upstream_proxy a) /\
      (requested_modes a = 0 ->
       cfg_mode cfg = "regular" /\ cfg_upstream_server cfg = None))).
Proof.
  intros Hm. split.
  - intros Ht Ho. apply result_inl, first_error_transparent; [exact Hm|].
    unfold transparent_unsupported. rewrite Ht, Ho. reflexivity.
  - intros Hu.
    assert (Hr : reaches_count parse_size original_addr a = true).
    { unfold reaches_count. rewrite Hm, Hu. reflexivity. }
    split; [|split].
    + intros Hc. apply result_inl. rewrite first_error_count by exact Hr.
      apply Z.ltb_lt in Hc. rewrite Hc. reflexivity.
    + intros Hc Hv. apply result_inl. rewrite first_error_count by exact Hr.
      apply Z.ltb_ge in Hc. rewrite Hc, Hv. reflexivity.
    + intros Hc Hv. exists (resolved parse_size a). split.
      * apply run_succeeds; [|exact Hv].
        unfold reaches_chain. rewrite Hr. cbn.
        apply negb_true_iff, Z.ltb_ge, Hc.
      * unfold requested_modes in *. cbn.
        unfold selected_mode, selected_upstream.
        destruct (transparent_proxy a), (socks_proxy a),
          (truthy (reverse_proxy a)), (truthy (upstream_proxy a));
          cbn in Hc; try lia; repeat split; intros; try discriminate;
          try reflexivity; cbn in *; lia.
Qed.

(** C6.  Normalisation of the certificate list is a total function of the
    list: it keeps the length, maps the entry at each position to the parts
    of the string at that position (so order and repetitions are kept),
    gives the parts "*" and the whole string for a string without "=", and
    the text before and after the first "=" otherwise; an absent list gives
    the empty list; the resolved certificates are this list, and the list
    has no influence on whether resolution fails. *)
Theorem cert_normalisation (l : list string) :
  length (cert_list (Some l)) = length l /\
  (forall i v, nth_error l i = Some v ->
               nth_error (cert_list (Some l)) i = Some (cert_parts v)) /\
  (forall v, occurs "=" v = false -> cert_parts v = ["*"; v]) /\
  (forall d p, occurs "=" d = false ->
               cert_parts (d ++ String "=" p) = [d; p]) /\
  cert_list None = [] /\
  (forall a cfg,
     result parse_size original_addr a = inr cfg ->
     cfg_certs cfg = cert_list (certs a)) /\
  (forall a cs e,
     result parse_size original_addr (set_certs cs a) = inl e <->
     result parse_size original_addr a = inl e).
Proof.
  rewrite cert_list_map.
  repeat match goal with |- _ /\ _ => split end;
    [| | | | reflexivity | | intros a cs e; rewrite !result_inl; reflexivity].
  - apply length_map.
  - intros i v H. rewrite nth_error_map, H. reflexivity.
  - intros v H. unfold cert_parts, split1. rewrite (cut_absent _ _ H).
    reflexivity.
  - intros d p H. unfold cert_parts, split1. rewrite (cut_first _ _ p H).
    reflexivity.
  - intros a cfg H. apply result_inr in H. destruct H as (_ & ->).
    reflexivity.
Qed.

(** C7, as amended.  With transparent mode requested on a platform without
    [original_addr], resolution fails, and for a namespace that passes the
    rules before the proxy-mode step (stream size and body size limit
    accepted, stream file not the file read) the error is "Transparent mode
    not supported on this platform."; without transparent mode the outcome
    is the same on every platform; and that error is raised only for a
    transparent request on such a platform. *)
Theorem transparent_platform_check a :
  (transparent_proxy a = true ->
   (exists e, result parse_size false a = inl e) /\
   (reaches_modes parse_size a = true ->
    result parse_size false a = inl (OptionsError msg_transparent))) /\
  (transparent_proxy a = false ->
   forall p p', run parse_size p a = run parse_size p' a) /\
  (forall p, result parse_size p a = inl (OptionsError msg_transparent) ->
             transparent_proxy a = true /\ p = false).
Proof.
  split; [|split].
  - intros Ht.
    assert (Hu : transparent_unsupported false a = true).
    { unfold transparent_unsupported. rewrite Ht. reflexivity. }
    split.
    + destruct (first_error parse_size false a) as [e|] eqn:He.
      * exists e. apply result_inl, He.
      * apply first_error_none in He. destruct He as [He _].
        split_reaches. congruence.
    + intros Hr. apply result_inl, first_error_transparent; assumption.
  - intros Ht p p'. rewrite !run_first_error. unfold first_error.
    unfold transparent_unsupported. rewrite Ht. reflexivity.
  - intros p H. apply result_inl in H.
    apply first_error_mark in H.
    destruct H as [[_ H]|[(_ & _ & H)|[(_ & _ & H)|[(_ & H & _)|[(_ & _ & H)|(_ & _ & H)]]]]];
      try discriminate H.
    unfold transparent_unsupported in H. apply andb_true_iff in H.
    destruct H as [H1 H2]. apply negb_true_iff in H2. tauto.
Qed.

(** C8.  When no rule is violated resolution returns a configuration, and
    the verbosity of every returned configuration is 0, the least level,
    if quiet is requested, whatever the namespace held for verbose, and is
    the value of verbose in the namespace otherwise. *)
Theorem quiet_override a :
  (reaches_chain parse_size original_addr a = true ->
   chain_violation a = false ->
   exists cfg, result parse_size original_addr a = inr cfg) /\
  (forall cfg,
     result parse_size original_addr a = inr cfg ->
     (quiet a = true -> cfg_verbosity cfg = Some 0) /\
     (quiet a = false -> cfg_verbosity cfg = verbose a)).
Proof.
  split.
  - intros H1 H2. eexists. apply result_succeeds; assumption.
  - intros cfg H. apply result_inr in H. destruct H as (_ & ->).
    cbn. split; intros ->; reflexivity.
Qed.


(** C10.  With transparent mode requested on a platform without
    [original_addr] and a second selector given as well, a namespace that
    passes the rules before the proxy-mode step fails with the platform
    error and not with the error about mutually exclusive modes. *)
Theorem transparent_check_before_count a :
  transparent_proxy a = true ->
  socks_proxy a = true \/ reverse_proxy a <> None \/ upstream_proxy a <> None ->
  reaches_modes parse_size a = true ->
  result parse_size false a = inl (OptionsError msg_transparent) /\
  result parse_size false a <> inl (OptionsError msg_modes).
Proof.
  intros Ht _ Hr.
  assert (H : result parse_size false a = inl (OptionsError msg_transparent)).
  { apply result_inl, first_error_transparent; [exact Hr|].
    unfold transparent_unsupported. rewrite Ht. reflexivity. }
  split; [exact H|]. rewrite H. discriminate.
Qed.

End Claims.

(** ** The contract of the size parser *)








(** ** The body size limit with the size parser *)


(** ** The size parser on the examples of section 8 *)

Lemma parse_size_examples :
  Human.parse_size "3m" = Some (3 * 1024 * 1024) /\
  Human.parse_size "512k" = Some (512 * 1024) /\
  Human.parse_size "0" = Some 0 /\
  Human.parse_size "" = None /\
  Human.parse_size "3x" = None /\
  Human.parse_size "m3" = None.
Proof. repeat split. Qed.

(** ** Command lines on which the function departs from its description *)

(** C1.  [-r flow.db -w flow.db] is rejected, but with the message about
    appending and an infinite loop, the same one as for
    [-r flow.db -a flow.db]; that message holds the unfilled placeholder
    and not the file name; it is not the message about reading and writing;
    [-r flowA.db -w flowB.db] resolves. *)
Theorem same_file_write_mode :
  resolve true (flag_w "flow.db" (flag_r "flow.db" no_flags)) =
  inl (OptionsError msg_read_append) /\
  resolve true (flag_a "flow.db" (flag_r "flow.db" no_flags)) =
  inl (OptionsError msg_read_append) /\
  msg_read_append =
  "Cannot use '{}' for both reading and appending flows. That would trigger an infinite loop." /\
  msg_read_append <> msg_read_write (Some "flow.db") /\
  (exists cfg,
     resolve true (flag_w "flowB.db" (flag_r "flowA.db" no_flags)) =
     inr cfg).
Proof.
  repeat match goal with |- _ /\ _ => split end; try reflexivity.
  - discriminate.
  - eexists. reflexivity.
Qed.

(** C2.  [--stream 3x], a size the parser rejects, leaves the function as
    the parser's [ValueError] and not as an [OptionsError]; the same string
    given to [-Z] raises the [OptionsError] of the body size limit. *)
Theorem stream_size_value_error :
  Human.parse_size "3x" = None /\
  resolve true (flag_stream "3x" no_flags) = inl ValueError /\
  resolve true (flag_Z "3x" no_flags) =
  inl (OptionsError "Invalid body size limit specification: 3x").
Proof. repeat split. Qed.

(** C5.  [--stream 3x -r flow.db -w flow.db] violates the rule of the
    stream size and the rule of the stream file; the function stops at the
    first of them, and what it raises there is the parser's [ValueError],
    not an [OptionsError].  On [-q -v -Z 3x] the call raises and leaves
    [verbose] at 3: the quiet override comes after the checks. *)
Theorem earliest_rule_value_error :
  stream_size_rejected Human.parse_size
    (flag_stream "3x" (flag_w "flow.db" (flag_r "flow.db" no_flags))) = true /\
  streamfile_conflict
    (flag_stream "3x" (flag_w "flow.db" (flag_r "flow.db" no_flags))) = true /\
  resolve true (flag_stream "3x" (flag_w "flow.db" (flag_r "flow.db" no_flags))) =
  inl ValueError /\
  (forall msg, ValueError <> OptionsError msg) /\
  verbose (namespace_after Human.parse_size true
             (flag_q (flag_v (flag_Z "3x" no_flags)))) = Some 3.
Proof.
  repeat match goal with |- _ /\ _ => split end; try reflexivity.
  discriminate.
Qed.

(** ** Command lines on which C3, C7 and C9 fail without their amendments *)

Lemma proxy_mode_selection_counterexample :
  (transparent_proxy (flag_T (flag_socks no_flags)) = true /\
   socks_proxy (flag_T (flag_socks no_flags)) = true /\
   resolve false (flag_T (flag_socks no_flags)) =
   inl (OptionsError msg_transparent) /\
   resolve false (flag_T (flag_socks no_flags)) <>
   inl (OptionsError msg_modes)) /\
  (reverse_proxy (flag_R "" (flag_U "" no_flags)) = Some "" /\
   upstream_proxy (flag_R "" (flag_U "" no_flags)) = Some "" /\
   exists cfg,
     resolve true (flag_R "" (flag_U "" no_flags)) = inr cfg /\
     cfg_mode cfg = "regular") /\
  (socks_proxy (flag_socks (flag_R "http://h:80" (flag_Z "3x" no_flags))) = true /\
   reverse_proxy (flag_socks (flag_R "http://h:80" (flag_Z "3x" no_flags))) =
   Some "http://h:80" /\
   resolve true (flag_socks (flag_R "http://h:80" (flag_Z "3x" no_flags))) =
   inl (OptionsError (msg_body_size_limit "3x")) /\
   resolve true (flag_socks (flag_R "http://h:80" (flag_Z "3x" no_flags))) <>
   inl (OptionsError msg_modes)) /\
  (requested_modes
     (flag_socks (flag_add_upstream_certs (flag_no_upstream_cert no_flags))) = 1 /\
   resolve true
     (flag_socks (flag_add_upstream_certs (flag_no_upstream_cert no_flags))) =
   inl (OptionsError msg_chain)).
Proof.
  repeat match goal with |- _ /\ _ => split end;
    try reflexivity; try discriminate.
  eexists. split; reflexivity.
Qed.

Lemma transparent_platform_check_counterexample :
  transparent_proxy (flag_T (flag_Z "3x" no_flags)) = true /\
  resolve false (flag_T (flag_Z "3x" no_flags)) =
  inl (OptionsError (msg_body_size_limit "3x")) /\
  resolve false (flag_T (flag_Z "3x" no_flags)) <>
  inl (OptionsError msg_transparent).
Proof.
  repeat match goal with |- _ /\ _ => split end;
    try reflexivity; discriminate.
Qed.


(** ** The claims at concrete command lines *)

Lemma proxy_mode_selection_witness :
  reaches_modes Human.parse_size (flag_socks (flag_R "http://h:80" no_flags)) = true /\
  transparent_unsupported true (flag_socks (flag_R "http://h:80" no_flags)) = false /\
  1 < requested_modes (flag_socks (flag_R "http://h:80" no_flags)) /\
  resolve true (flag_socks (flag_R "http://h:80" no_flags)) =
  inl (OptionsError msg_modes).
Proof.
  split; [reflexivity|]. split; [reflexivity|]. split; [reflexivity|].
  apply (proj1 (proj2 (proxy_mode_selection Human.parse_size true
                         (flag_socks (flag_R "http://h:80" no_flags)) eq_refl)
                  eq_refl)).
  reflexivity.
Defined.

Lemma chain_precondition_witness :
  reaches_chain Human.parse_size true
    (flag_add_upstream_certs (flag_no_upstream_cert no_flags)) = true /\
  resolve true (flag_add_upstream_certs (flag_no_upstream_cert no_flags)) =
  inl (OptionsError msg_chain).
Proof.
  split; [reflexivity|].
  apply (proj2 (proj1 (chain_precondition Human.parse_size true
                         (flag_add_upstream_certs
                            (flag_no_upstream_cert no_flags))))).
  repeat split.
Defined.

Lemma cert_normalisation_witness :
  nth_error ["example.com=a.pem"; "a.pem"; "a.pem"] 2 = Some "a.pem" /\
  nth_error (cert_list (Some ["example.com=a.pem"; "a.pem"; "a.pem"])) 2 =
  Some (cert_parts "a.pem").
Proof.
  split; [reflexivity|].
  apply (proj1 (proj2 (@cert_normalisation unit Human.parse_size true
                         ["example.com=a.pem"; "a.pem"; "a.pem"]))).
  reflexivity.
Defined.

Lemma transparent_platform_check_witness :
  transparent_proxy (flag_T no_flags) = true /\
  reaches_modes Human.parse_size (flag_T no_flags) = true /\
  resolve false (flag_T no_flags) = inl (OptionsError msg_transparent).
Proof.
  split; [reflexivity|]. split; [reflexivity|].
  apply (proj2 (proj1 (transparent_platform_check Human.parse_size
                         (flag_T no_flags)) eq_refl)).
  reflexivity.
Defined.

Lemma quiet_override_witness :
  quiet (flag_q (flag_v no_flags)) = true /\
  verbose (flag_q (flag_v no_flags)) = Some 3 /\
  exists cfg,
    resolve true (flag_q (flag_v no_flags)) = inr cfg /\
    cfg_verbosity cfg = Some 0.
Proof.
  split; [reflexivity|]. split; [reflexivity|].
  destruct (quiet_override Human.parse_size true (flag_q (flag_v no_flags)))
    as [H1 H2].
  destruct (H1 eq_refl eq_refl) as (cfg & H).
  exists cfg. split; [exact H|].
  apply (H2 cfg H). reflexivity.
Defined.


Lemma transparent_check_before_count_witness :
  transparent_proxy (flag_T (flag_socks no_flags)) = true /\
  socks_proxy (flag_T (flag_socks no_flags)) = true /\
  reaches_modes Human.parse_size (flag_T (flag_socks no_flags)) = true /\
  resolve false (flag_T (flag_socks no_flags)) =
  inl (OptionsError msg_transparent).
Proof.
  split; [reflexivity|]. split; [reflexivity|]. split; [reflexivity|].
  apply (transparent_check_before_count Human.parse_size
           (flag_T (flag_socks no_flags)) eq_refl (or_introl eq_refl) eq_refl).
Defined.

(** ** Further properties of [get_common_options] *)

Ltac size_case :=
  intros;
  repeat match goal with
         | H : _ /\ _ |- _ => destruct H
         | H : exists _, _ |- _ => destruct H
         | H : Some _ = Some _ |- _ => injection H as H
         | H : SizeInt _ = SizeInt _ |- _ => injection H as H
         | H : SizeStr _ = SizeStr _ |- _ => injection H as H
         end;
  subst; try discriminate; try congruence;
  try (eexists; repeat split; eauto; fail);
  try (repeat split; reflexivity).

Section Further.

Context {Copied : Type}.
Variable parse_size : string -> option Z.
Variable original_addr : bool.

Implicit Types a b : Args Copied.

(** *** Auxiliary facts *)

Lemma truthy_some (o : option string) :
  truthy o = true <-> exists u, o = Some u /\ u <> "".
Proof.
  destruct o as [u|]; cbn.
  - unfold str_truthy. rewrite negb_true_iff, String.eqb_neq. split.
    + intros H. exists u. split; [reflexivity|exact H].
    + intros (w & [= <-] & H). exact H.
  - split; [discriminate|]. intros (w & H & _). discriminate.
Qed.

Lemma str_truthy_false v : str_truthy v = false <-> v = "".
Proof. unfold str_truthy. rewrite negb_false_iff. apply String.eqb_eq. Qed.

Lemma size_rejected_iff (o : option string) :
  match o with
  | Some v =>
      str_truthy v && match parse_size v with Some _ => false | None => true end
  | None => false
  end = true <->
  exists v, o = Some v /\ v <> "" /\ parse_size v = None.
Proof.
  destruct o as [v|]; [|split; [discriminate|intros (w & H & _); discriminate]].
  rewrite andb_true_iff. unfold str_truthy.
  rewrite negb_true_iff, String.eqb_neq. split.
  - intros [H1 H2]. exists v. repeat split; [exact H1|].
    destruct (parse_size v); [discriminate|reflexivity].
  - intros (w & [= <-] & H1 & H2). rewrite H2. split; [exact H1|reflexivity].
Qed.

Lemma cut_some sep v l r :
  cut sep v = Some (l, r) -> v = l ++ String sep r /\ occurs sep l = false.
Proof.
  revert l. induction v as [|c t IH]; cbn; intros l; [discriminate|].
  destruct (Ascii.eqb_spec c sep) as [->|Hc].
  - intros [= <- <-]. split; reflexivity.
  - destruct (cut sep t) as [[l' r']|]; [|discriminate].
    intros [= <- <-]. destruct (IH l' eq_refl) as [-> Ho]. cbn.
    split; [reflexivity|]. rewrite Ho.
    apply Ascii.eqb_neq in Hc. rewrite Hc. reflexivity.
Qed.

Lemma cut_none sep v : cut sep v = None -> occurs sep v = false.
Proof.
  induction v as [|c t IH]; cbn; [reflexivity|].
  destruct (Ascii.eqb c sep); [discriminate|].
  destruct (cut sep t) as [[l r]|]; [discriminate|].
  intros _. cbn. apply IH. reflexivity.
Qed.

Lemma succeeds_rules a cfg :
  result parse_size original_addr a = inr cfg ->
  cfg = resolved parse_size a /\
  stream_size_rejected parse_size a = false /\
  streamfile_conflict a = false /\
  body_size_rejected parse_size a = false /\
  transparent_unsupported original_addr a = false /\
  requested_modes a <= 1 /\
  chain_violation a = false.
Proof.
  intros H. apply result_inr in H. destruct H as [H ->].
  apply first_error_none in H. destruct H as [H Hc]. split_reaches.
  repeat split; try assumption.
  apply Z.ltb_ge. assumption.
Qed.

(** *** Calling the function again *)

(** X1.  A second call on the namespace that a first call left behind has
    the outcome of the first call, exception or dictionary, and changes the
    namespace no further. *)
Theorem second_call_same_outcome a :
  run parse_size original_addr (namespace_after parse_size original_addr a) =
  (result parse_size original_addr a,
   namespace_after parse_size original_addr a).
Proof.
  unfold result, namespace_after. rewrite (run_first_error _ _ a).
  destruct (first_error parse_size original_addr a) as [e|] eqn:He;
    cbn [fst snd].
  - rewrite run_first_error, He. reflexivity.
  - rewrite run_first_error.
    assert (Hq : first_error parse_size original_addr (quieted a) =
                 first_error parse_size original_addr a).
    { unfold quieted. destruct (quiet a); reflexivity. }
    rewrite Hq, He. unfold quieted, resolved.
    destruct (quiet a) eqn:Hqa; cbn; rewrite ?Hqa; reflexivity.
Qed.

(** X2.  A call assigns to no attribute of the namespace other than
    [verbose]: putting the old value of [verbose] back gives the namespace
    the call started from.  [verbose] itself becomes 0 when the call returns
    and quiet is set, and keeps its value when quiet is not set or the call
    raises. *)
Theorem call_assigns_verbose_only a :
  set_verbose (verbose a) (namespace_after parse_size original_addr a) = a /\
  verbose (namespace_after parse_size original_addr a) =
  match result parse_size original_addr a with
  | inr _ => if quiet a then Some 0 else verbose a
  | inl _ => verbose a
  end.
Proof.
  unfold result, namespace_after. rewrite run_first_error.
  destruct (first_error parse_size original_addr a); cbn.
  - destruct a; split; reflexivity.
  - unfold quieted. destruct a as [? ? ? ? ? ? ? ? ? ? ? ? ? q ? ?]; cbn.
    destruct q; split; reflexivity.
Qed.

(** *** When the function returns *)

(** X3.  The function returns a dictionary exactly when none of its six
    tests fires: no stream size or body size limit that the parser rejects,
    no stream file equal to the file read, no transparent mode without
    platform support, at most one proxy mode requested, and no
    add-upstream-certs without the upstream certificate. *)
Theorem returns_iff_no_rule_fires a :
  (exists cfg, result parse_size original_addr a = inr cfg) <->
  stream_size_rejected parse_size a = false /\
  streamfile_conflict a = false /\
  body_size_rejected parse_size a = false /\
  transparent_unsupported original_addr a = false /\
  requested_modes a <= 1 /\
  chain_violation a = false.
Proof.
  split.
  - intros [cfg H]. apply succeeds_rules in H. tauto.
  - intros (H1 & H2 & H3 & H4 & H5 & H6).
    exists (resolved parse_size a). apply result_succeeds; [|exact H6].
    unfold reaches_chain, reaches_count, reaches_modes, reaches_body_size,
      reaches_streamfile.
    rewrite H1, H2, H3, H4. cbn. apply negb_true_iff, Z.ltb_ge, H5.
Qed.

(** X4.  The function raises [ValueError] exactly when the stream size is
    a non-empty string that the parser rejects; no value of the body size
    limit, and nothing else in the namespace, makes it raise one. *)
Theorem value_error_iff a :
  result parse_size original_addr a = inl ValueError <->
  exists v, stream_large_bodies a = Some v /\ v <> "" /\ parse_size v = None.
Proof.
  rewrite <- size_rejected_iff. fold (stream_size_rejected parse_size a).
  split.
  - intros H. apply result_inl, first_error_mark in H.
    destruct H as [[H _]|[(_ & _ & H)|[(_ & _ & H)|[(_ & _ & H)|[(_ & _ & H)|(_ & _ & H)]]]]];
      try discriminate H.
    exact H.
  - intros H. apply result_inl, first_error_stream, H.
Qed.

(** X5.  The error about mutually exclusive proxy modes is raised exactly
    when the earlier tests pass and more than one mode is requested; it is
    never raised for a single selector. *)
Theorem mode_conflict_iff a :
  result parse_size original_addr a = inl (OptionsError msg_modes) <->
  stream_size_rejected parse_size a = false /\
  streamfile_conflict a = false /\
  body_size_rejected parse_size a = false /\
  transparent_unsupported original_addr a = false /\
  1 < requested_modes a.
Proof.
  split.
  - intros H. apply result_inl, first_error_mark in H.
    destruct H as [[_ H]|[(_ & _ & H)|[(_ & _ & H)|[(_ & _ & H)|[(H1 & H2 & _)|(_ & _ & H)]]]]];
      try discriminate H.
    split_reaches. tauto.
  - intros (H1 & H2 & H3 & H4 & H5). apply result_inl.
    rewrite first_error_count.
    + apply Z.ltb_lt in H5. rewrite H5. reflexivity.
    + unfold reaches_count, reaches_modes, reaches_body_size,
        reaches_streamfile. rewrite H1, H2, H3, H4. reflexivity.
Qed.

(** *** What a returned dictionary holds *)

(** X6.  In a returned dictionary a sticky filter is the filter of the
    namespace when that is a non-empty string and [None] when it is absent
    or empty; it is never the empty string.  This holds for the cookie
    filter and for the auth filter. *)
Theorem sticky_filters_resolved a cfg :
  result parse_size original_addr a = inr cfg ->
  (forall f, stickycookie_filt a = Some f -> f <> "" ->
             cfg_stickycookie cfg = Some f) /\
  (stickycookie_filt a = None \/ stickycookie_filt a = Some "" ->
   cfg_stickycookie cfg = None) /\
  cfg_stickycookie cfg <> Some "" /\
  (forall f, stickyauth_filt a = Some f -> f <> "" ->
             cfg_stickyauth cfg = Some f) /\
  (stickyauth_filt a = None \/ stickyauth_filt a = Some "" ->
   cfg_stickyauth cfg = None) /\
  cfg_stickyauth cfg <> Some "".
Proof.
  intros H. apply result_inr in H. destruct H as [_ ->]. cbn.
  assert (Hs : forall o : option string,
             (forall f, o = Some f -> f <> "" -> sticky o = Some f) /\
             (o = None \/ o = Some "" -> sticky o = None) /\
             sticky o <> Some "").
  { intros o. unfold sticky. destruct o as [f|]; cbn.
    - destruct (str_truthy f) eqn:Hf.
      + repeat split.
        * intros g [= <-] _. reflexivity.
        * intros [H|[= ->]]; discriminate.
        * intros [= ->]. discriminate.
      + apply str_truthy_false in Hf. subst f. repeat split.
        * intros g [= <-] Hg. congruence.
        * discriminate.
    - repeat split; discriminate. }
  destruct (Hs (stickycookie_filt a)) as (H1 & H2 & H3).
  destruct (Hs (stickyauth_filt a)) as (H4 & H5 & H6).
  repeat split; assumption.
Qed.

(** X7.  In a returned dictionary the stream file is the path that [-w] or
    [-a] stored, with the append switch on for [-a] and off for [-w]; both
    are off when no stream file was given; and the stream file is never the
    file that flows are read from. *)
Theorem streamfile_resolved a cfg :
  result parse_size original_addr a = inr cfg ->
  (streamfile a = None ->
   cfg_streamfile cfg = None /\ cfg_streamfile_append cfg = false) /\
  (forall f, streamfile a = Some (wfile f) ->
             cfg_streamfile cfg = Some f /\ cfg_streamfile_append cfg = false) /\
  (forall f, streamfile a = Some (afile f) ->
             cfg_streamfile cfg = Some f /\ cfg_streamfile_append cfg = true) /\
  (forall f, cfg_streamfile cfg = Some f -> cfg_rfile cfg <> Some f).
Proof.
  intros H. apply succeeds_rules in H. destruct H as (-> & _ & Hc & _). cbn.
  repeat split; try (intros f Hf; rewrite Hf; reflexivity);
    try (rewrite H; reflexivity).
  intros f Hf Hr. unfold streamfile_conflict in Hc.
  destruct (streamfile a) as [[g m]|]; [|discriminate].
  injection Hf as ->. rewrite Hr in Hc. cbn in Hc.
  rewrite String.eqb_refl in Hc. discriminate.
Qed.

(** X8.  In a returned dictionary the mode is one of the five modes;
    transparent mode is returned only on a platform with [original_addr];
    in reverse and in upstream mode the upstream server is the non-empty
    target given with the selector, unchanged; in the three other modes
    there is no upstream server. *)
Theorem mode_resolved a cfg :
  result parse_size original_addr a = inr cfg ->
  In (cfg_mode cfg) ["regular"; "transparent"; "socks5"; "reverse"; "upstream"] /\
  (cfg_mode cfg = "transparent" ->
   transparent_proxy a = true /\ original_addr = true) /\
  (cfg_mode cfg = "socks5" -> socks_proxy a = true) /\
  (cfg_mode cfg = "reverse" ->
   exists u, u <> "" /\ reverse_proxy a = Some u /\
             cfg_upstream_server cfg = Some u) /\
  (cfg_mode cfg = "upstream" ->
   exists u, u <> "" /\ upstream_proxy a = Some u /\
             cfg_upstream_server cfg = Some u) /\
  (cfg_mode cfg = "regular" \/ cfg_mode cfg = "transparent" \/
   cfg_mode cfg = "socks5" -> cfg_upstream_server cfg = None).
Proof.
  intros H. apply succeeds_rules in H.
  destruct H as (-> & _ & _ & _ & Ht & Hn & _). cbn.
  unfold selected_mode, selected_upstream, requested_modes,
    transparent_unsupported in *.
  destruct (truthy (upstream_proxy a)) eqn:Hu;
    destruct (truthy (reverse_proxy a)) eqn:Hr;
    destruct (socks_proxy a) eqn:Hs;
    destruct (transparent_proxy a) eqn:Htp;
    cbn in Hn; try lia;
    repeat match goal with |- _ /\ _ => split end;
    try (cbn; tauto); try discriminate;
    try (intros _; split; [reflexivity|]; destruct original_addr;
         [reflexivity|discriminate]);
    try (intros _; reflexivity);
    try (intros [H|[H|H]]; (discriminate H || reflexivity)).
  - intros _. apply truthy_some in Hu. destruct Hu as (u & Hu & Hne).
    exists u. rewrite Hu. repeat split. exact Hne.
  - intros _. apply truthy_some in Hr. destruct Hr as (u & Hr & Hne).
    exists u. rewrite Hr. repeat split. exact Hne.
Qed.

(** X9.  In a returned dictionary a size option is [None] exactly when it
    was absent, a byte count only if the parser returned that count for the
    string given, and a string only if the string given was empty: a
    non-empty size string never reaches the dictionary unparsed.  This holds
    for the body size limit and for the stream size. *)
Theorem sizes_resolved a cfg :
  result parse_size original_addr a = inr cfg ->
  (cfg_body_size_limit cfg = SizeNone <-> body_size_limit a = None) /\
  (forall n, cfg_body_size_limit cfg = SizeInt n <->
             exists v, body_size_limit a = Some v /\ v <> "" /\
                       parse_size v = Some n) /\
  (forall v, cfg_body_size_limit cfg = SizeStr v <->
             v = "" /\ body_size_limit a = Some "") /\
  (cfg_stream_large_bodies cfg = SizeNone <-> stream_large_bodies a = None) /\
  (forall n, cfg_stream_large_bodies cfg = SizeInt n <->
             exists v, stream_large_bodies a = Some v /\ v <> "" /\
                       parse_size v = Some n) /\
  (forall v, cfg_stream_large_bodies cfg = SizeStr v <->
             v = "" /\ stream_large_bodies a = Some "").
Proof.
  intros H. apply succeeds_rules in H.
  destruct H as (-> & Hs & _ & Hb & _). cbn.
  assert (Hsize : forall o : option string,
             match o with
             | Some v =>
                 str_truthy v &&
                 match parse_size v with Some _ => false | None => true end
             | None => false
             end = false ->
             (resolved_size parse_size o = SizeNone <-> o = None) /\
             (forall n, resolved_size parse_size o = SizeInt n <->
                        exists v, o = Some v /\ v <> "" /\
                                  parse_size v = Some n) /\
             (forall v, resolved_size parse_size o = SizeStr v <->
                        v = "" /\ o = Some "")).
  { intros o Ho. unfold resolved_size. destruct o as [w|].
    - destruct (str_truthy w) eqn:Hw.
      + assert (Hne : w <> "").
        { intros ->. discriminate Hw. }
        destruct (parse_size w) as [m|] eqn:Hp; [|discriminate Ho].
        repeat split; size_case.
      + apply str_truthy_false in Hw. subst w.
        repeat split; size_case.
    - repeat split; size_case. }
  destruct (Hsize (body_size_limit a) Hb) as (H1 & H2 & H3).
  destruct (Hsize (stream_large_bodies a) Hs) as (H4 & H5 & H6).
  repeat match goal with |- _ /\ _ => split end; assumption.
Qed.

(** *** The parts of a certificate specification *)

(** X10.  Every certificate specification is normalised to exactly two parts.
    Either the specification holds no "=", the first part is "*" and the
    second is the whole specification; or the first part holds no "=" and
    the two parts joined by "=" are the specification again, so that a
    further "=" stays in the path. *)
Theorem cert_parts_two v :
  exists d p,
    cert_parts v = [d; p] /\
    ((occurs "=" v = false /\ d = "*" /\ p = v) \/
     (occurs "=" v = true /\ occurs "=" d = false /\ v = d ++ String "=" p)).
Proof.
  unfold cert_parts, split1.
  destruct (cut "=" v) as [[l r]|] eqn:Hc; cbn.
  - exists l, r. split; [reflexivity|]. right.
    apply cut_some in Hc. destruct Hc as [-> Hl].
    repeat split; [|exact Hl].
    clear Hl. induction l as [|c t IH]; cbn.
    + reflexivity.
    + rewrite IH. apply orb_true_r.
  - exists "*", v. split; [reflexivity|]. left.
    apply cut_none in Hc. repeat split. exact Hc.
Qed.

(** *** What the tests read *)

(** X11.  Whether the function raises, and what it raises, depends only on
    the ten attributes its tests read: two namespaces that agree on them
    raise the same exception or both return, whatever they hold for quiet,
    verbose, the sticky filters, the certificates and the copied keys. *)
Theorem raises_by_checked_attributes a b :
  same_checked a b ->
  (forall e, result parse_size original_addr a = inl e <->
             result parse_size original_addr b = inl e) /\
  ((exists cfg, result parse_size original_addr a = inr cfg) <->
   (exists cfg, result parse_size original_addr b = inr cfg)).
Proof.
  intros (H1 & H2 & H3 & H4 & H5 & H6 & H7 & H8 & H9 & H10).
  assert (He : first_error parse_size original_addr a =
               first_error parse_size original_addr b).
  { unfold first_error, stream_size_rejected, streamfile_conflict,
      body_size_rejected, transparent_unsupported, requested_modes,
      chain_violation.
    rewrite H1, H2, H3, H4, H5, H6, H7, H8, H9, H10. reflexivity. }
  split.
  - intros e. rewrite !result_inl, He. reflexivity.
  - unfold result. rewrite !run_first_error, He.
    destruct (first_error parse_size original_addr b); cbn.
    + split; intros [cfg H]; discriminate.
    + split; intros _; eexists; reflexivity.
Qed.

End Further.

(** *** The further properties at concrete command lines *)

Lemma sticky_filters_resolved_witness :
  resolve true (flag_t "~d example.com" (flag_u "" no_flags)) =
  inr (resolved Human.parse_size (flag_t "~d example.com" (flag_u "" no_flags))) /\
  cfg_stickycookie
    (resolved Human.parse_size (flag_t "~d example.com" (flag_u "" no_flags))) =
  Some "~d example.com" /\
  cfg_stickyauth
    (resolved Human.parse_size (flag_t "~d example.com" (flag_u "" no_flags))) =
  None.
Proof.
  split; [reflexivity|].
  destruct (sticky_filters_resolved Human.parse_size true
              (flag_t "~d example.com" (flag_u "" no_flags)) _ eq_refl)
    as (H1 & _ & _ & _ & H5 & _).
  split.
  - apply H1; [reflexivity|discriminate].
  - apply H5. right. reflexivity.
Defined.

Lemma streamfile_resolved_witness :
  resolve true (flag_a "out.db" (flag_r "in.db" no_flags)) =
  inr (resolved Human.parse_size (flag_a "out.db" (flag_r "in.db" no_flags))) /\
  streamfile (flag_a "out.db" (flag_r "in.db" no_flags)) = Some (afile "out.db") /\
  cfg_streamfile
    (resolved Human.parse_size (flag_a "out.db" (flag_r "in.db" no_flags))) =
  Some "out.db" /\
  cfg_streamfile_append
    (resolved Human.parse_size (flag_a "out.db" (flag_r "in.db" no_flags))) =
  true.
Proof.
  split; [reflexivity|]. split; [reflexivity|].
  destruct (streamfile_resolved Human.parse_size true
              (flag_a "out.db" (flag_r "in.db" no_flags)) _ eq_refl)
    as (_ & _ & H3 & _).
  apply H3. reflexivity.
Defined.

Lemma mode_resolved_witness :
  resolve true (flag_R "http://h:80" no_flags) =
  inr (resolved Human.parse_size (flag_R "http://h:80" no_flags)) /\
  cfg_mode (resolved Human.parse_size (flag_R "http://h:80" no_flags)) =
  "reverse" /\
  exists u,
    u <> "" /\
    reverse_proxy (flag_R "http://h:80" no_flags) = Some u /\
    cfg_upstream_server
      (resolved Human.parse_size (flag_R "http://h:80" no_flags)) = Some u.
Proof.
  split; [reflexivity|]. split; [reflexivity|].
  destruct (mode_resolved Human.parse_size true
              (flag_R "http://h:80" no_flags) _ eq_refl)
    as (_ & _ & _ & H4 & _).
  apply H4. reflexivity.
Defined.

Lemma sizes_resolved_witness :
  resolve true (flag_Z "3m" no_flags) =
  inr (resolved Human.parse_size (flag_Z "3m" no_flags)) /\
  cfg_body_size_limit (resolved Human.parse_size (flag_Z "3m" no_flags)) =
  SizeInt 3145728 /\
  exists v,
    body_size_limit (flag_Z "3m" no_flags) = Some v /\ v <> "" /\
    Human.parse_size v = Some 3145728.
Proof.
  split; [reflexivity|]. split; [reflexivity|].
  destruct (sizes_resolved Human.parse_size true
              (flag_Z "3m" no_flags) _ eq_refl)
    as (_ & H2 & _).
  apply H2. reflexivity.
Defined.

Lemma raises_by_checked_attributes_witness :
  same_checked (flag_q (flag_v (flag_Z "3x" no_flags)))
               (flag_cert "a.pem" (flag_t "~q" (flag_Z "3x" no_flags))) /\
  resolve true (flag_q (flag_v (flag_Z "3x" no_flags))) =
  inl (OptionsError (msg_body_size_limit "3x")) /\
  resolve true (flag_cert "a.pem" (flag_t "~q" (flag_Z "3x" no_flags))) =
  inl (OptionsError (msg_body_size_limit "3x")).
Proof.
  assert (H : same_checked (flag_q (flag_v (flag_Z "3x" no_flags)))
                (flag_cert "a.pem" (flag_t "~q" (flag_Z "3x" no_flags)))).
  { repeat split. }
  split; [exact H|]. split; [reflexivity|].
  apply (proj1 (raises_by_checked_attributes Human.parse_size true _ _ H)).
  reflexivity.
Defined.

End CmdlineFacts.
